(** * monad-selector: the Maybe and Result containers and their selector wrappers

    A shallow embedding of [src/maybe.ts], [src/result.ts],
    [src/maybe-selector.ts] and [src/result-selector.ts].

    Modelling choices.
    - JavaScript values are a first-order datatype [value].  An object is
      the finite map of its own enumerable properties ([gmap string value]);
      property order and prototype chains are not represented.
    - The function literals that the four constructors store in the objects
      they return are defunctionalised: [JustFn a MaybeOps.map] is the
      closure [f => Maybe(f(a))] created by the call [Just(a)].  The meaning
      of every such closure is given by [call].
    - Callbacks handed to the library ([f] in [map(f)], the selector
      factory) are Rocq functions in the monad [M]: they may read and change
      an arbitrary caller-owned world [W] and may throw.
    - Values are compared structurally; object identity is not represented.
      Numbers are integers: the library does no arithmetic.
    - An error object has a name and a message and a function has no
      property at all: an [Error] or a function to which the caller added
      an [isNothing] or [isOk] property, and an object that inherits one,
      cannot be written here.  The laws on which values the type tests
      recognise are therefore stated for objects of own data properties
      and for the results of the library's constructors and wrappers. *)

From stdpp Require Import base strings gmap fin_maps pretty.

Set Warnings "-register-all".

(** ** Values *)

(** The operation names of [interface MaybeOps<A>]. *)
Module MaybeOps.
Inductive t := flatMap | forEach | get | join | map | use.

(** The property under which the operation is stored. *)
Definition key (m : t) : string :=
  match m with
  | flatMap => "flatMap"
  | forEach => "forEach"
  | get => "get"
  | join => "join"
  | map => "map"
  | use => "use"
  end.
End MaybeOps.

(** The operation names of [interface ResultOps<A>]. *)
Module ResultOps.
Inductive t :=
  flatMap | forEach | get | getError | getValue | join | map | use.

(** The property under which the operation is stored. *)
Definition key (m : t) : string :=
  match m with
  | flatMap => "flatMap"
  | forEach => "forEach"
  | get => "get"
  | getError => "getError"
  | getValue => "getValue"
  | join => "join"
  | map => "map"
  | use => "use"
  end.
End ResultOps.

(** A function value: one of the arrow functions written in the bodies of
    [Nothing], [Just], [Err] and [Ok], together with the variable it
    captured, or a function of the caller's. *)
Inductive closure (V : Type) : Type :=
| NothingFn (m : MaybeOps.t)
| JustFn (a : V) (m : MaybeOps.t)
| ErrFn (e : V) (m : ResultOps.t)
| OkFn (a : V) (m : ResultOps.t)
| HostFn (id : nat).
Arguments NothingFn {V} m.
Arguments JustFn {V} a m.
Arguments ErrFn {V} e m.
Arguments OkFn {V} a m.
Arguments HostFn {V} id.

Inductive value : Type :=
| VUndefined
| VNull
| VBool (b : bool)
| VNum (n : Z)
| VStr (s : string)
| VError (name message : string)
| VObj (props : gmap string value)
| VFun (c : closure value).

(** [new Error(message)] and [new TypeError(message)]. *)
Definition Error (message : string) : value := VError "Error" message.
Definition TypeError (message : string) : value := VError "TypeError" message.

(** [v instanceof Error]: every error object, whatever its constructor. *)
Definition instanceof_Error (v : value) : bool :=
  match v with
  | VError _ _ => true
  | _ => false
  end.

(** [v === undefined || v === null]. *)
Definition is_nullish (v : value) : bool :=
  match v with
  | VUndefined | VNull => true
  | _ => false
  end.

(** The own enumerable properties copied by an object spread [{...v}]:
    those of an object, the indexed characters of a string, and nothing for
    every other value ([null] and [undefined] included). *)
Definition string_props (s : string) : gmap string value :=
  list_to_map
    (imap (fun i c => (pretty i, VStr (String c EmptyString)))
          (String.list_ascii_of_string s)).

(** An array index: a non-empty string of decimal digits. *)
Definition is_digit (c : Ascii.ascii) : bool :=
  (48 <=? Ascii.nat_of_ascii c)%nat && (Ascii.nat_of_ascii c <=? 57)%nat.

Definition is_index (k : string) : bool :=
  match k with
  | EmptyString => false
  | _ => forallb is_digit (String.list_ascii_of_string k)
  end.

Definition own_enumerable (v : value) : gmap string value :=
  match v with
  | VObj props => props
  | VStr s => string_props s
  | _ => ∅
  end.

(** The own property [k] of [o], if it has one. *)
Definition tag (k : string) (o : value) : option value :=
  own_enumerable o !! k.

(** [{ ...result, ...sel }]: the properties of [sel] win on a common key. *)
Definition spread (result sel : value) : value :=
  VObj (own_enumerable sel ∪ own_enumerable result).

(** ** Computations *)

Inductive outcome (A : Type) : Type :=
| Ret (a : A)
| Throw (exn : value).
Arguments Ret {A} a.
Arguments Throw {A} exn.

Section Model.
Context {W : Type}.

(** A computation runs in a world [W] the library never looks at, and
    either returns or throws a value. *)
Definition M (A : Type) : Type := W -> outcome A * W.

Definition ret {A} (a : A) : M A := fun w => (Ret a, w).

Definition throw {A} (exn : value) : M A := fun w => (Throw exn, w).

Definition bind {A B} (c : M A) (k : A -> M B) : M B :=
  fun w =>
    match c w with
    | (Ret a, w') => k a w'
    | (Throw exn, w') => (Throw exn, w')
    end.

(** A function of the caller's, applied to its actual arguments. *)
Definition callback : Type := list value -> M value.

(** The computation returns normally, whatever the world it starts in. *)
Definition returns {A} (c : M A) : Prop :=
  forall w, exists a w', c w = (Ret a, w').
End Model.
Arguments M : clear implicits.
Arguments callback : clear implicits.

Notation "'do' x <- c ; k" := (bind c (fun x => k))
  (at level 10, x name, c at level 100, k at level 200,
   format "'[v' 'do'  x  <-  c ;  '/' k ']'").

(** What the caller's functions stored in objects do when they are called. *)
Class Host (W : Type) : Type :=
  host_call : nat -> list (callback W) -> M W value.

(** ** Property access and calls *)

Section Library.
Context {W : Type} `{!Host W}.

(** [s[k]] on a primitive string: its length and its indexed characters. *)
Definition string_prop (s : string) (k : string) : value :=
  if decide (k = "length") then VNum (Z.of_nat (String.length s))
  else if is_index k then default VUndefined (string_props s !! k)
  else VUndefined.

(** [v.k].  Reading a property of [undefined] or [null] throws a
    [TypeError]; a missing property reads as [undefined].  Inherited
    properties are not represented: the library reads only [isNothing] and
    [isOk], which no built-in prototype defines. *)
Definition get_prop (v : value) (k : string) : M W value :=
  match v with
  | VUndefined => throw (TypeError "Cannot read properties of undefined")
  | VNull => throw (TypeError "Cannot read properties of null")
  | VObj props => ret (default VUndefined (props !! k))
  | VError name message =>
      ret (if decide (k = "name") then VStr name
           else if decide (k = "message") then VStr message
           else VUndefined)
  | VStr s => ret (string_prop s k)
  | _ => ret VUndefined
  end.

(** The [i]-th actual argument, used as a function.  Calling a parameter
    that received no argument throws a [TypeError]. *)
Definition arg (i : nat) (args : list (callback W)) : callback W :=
  default (fun _ => throw (TypeError "f is not a function")) (args !! i).

(** ** src/maybe.ts *)

Definition Nothing_object : value :=
  VObj (list_to_map
    [ ("flatMap", VFun (NothingFn MaybeOps.flatMap));
      ("forEach", VFun (NothingFn MaybeOps.forEach));
      ("get", VFun (NothingFn MaybeOps.get));
      ("isNothing", VBool true);
      ("join", VFun (NothingFn MaybeOps.join));
      ("map", VFun (NothingFn MaybeOps.map));
      ("use", VFun (NothingFn MaybeOps.use));
      ("value", VUndefined) ]).

(** [export function Nothing<A>(): Nothing<A>] *)
Definition Nothing : M W value := ret Nothing_object.

Definition Just_object (a : value) : value :=
  VObj (list_to_map
    [ ("flatMap", VFun (JustFn a MaybeOps.flatMap));
      ("forEach", VFun (JustFn a MaybeOps.forEach));
      ("get", VFun (JustFn a MaybeOps.get));
      ("isNothing", VBool false);
      ("join", VFun (JustFn a MaybeOps.join));
      ("map", VFun (JustFn a MaybeOps.map));
      ("use", VFun (JustFn a MaybeOps.use));
      ("value", a) ]).

(** [export function Just<A>(a: A): Just<A>] *)
Definition Just (a : value) : M W value :=
  if is_nullish a then
    throw (TypeError
      "invalid argument provided to Just: undefined and null values are not allowed")
  else ret (Just_object a).

(** [export function Maybe<A>(a?: A | null): Maybe<A>] *)
Definition Maybe (a : value) : M W value :=
  if is_nullish a then Nothing else Just a.

(** [export function isMaybe<A>(a: Maybe<A> | A): a is Maybe<A>] *)
Definition isMaybe (a : value) : M W bool :=
  do t <- get_prop a "isNothing";
  ret (match t with VUndefined => false | _ => true end).

(** The arrow functions of the object literal in [Nothing]. *)
Definition Nothing_call (m : MaybeOps.t) (args : list (callback W))
  : M W value :=
  match m with
  | MaybeOps.flatMap => Nothing
  | MaybeOps.forEach => ret VUndefined
  | MaybeOps.get => throw (TypeError "value is undefined")
  | MaybeOps.join => arg 0 args []
  | MaybeOps.map => Nothing
  | MaybeOps.use => ret VUndefined
  end.

(** The arrow functions of the object literal in [Just], closed over [a]. *)
Definition Just_call (a : value) (m : MaybeOps.t) (args : list (callback W))
  : M W value :=
  match m with
  | MaybeOps.flatMap => arg 0 args [a]
  | MaybeOps.forEach => arg 0 args [a]
  | MaybeOps.get => ret a
  | MaybeOps.join => arg 1 args [a]
  | MaybeOps.map => do b <- arg 0 args [a]; Maybe b
  | MaybeOps.use => arg 0 args [a]
  end.

(** ** src/result.ts *)

Definition Err_object (e : value) : value :=
  VObj (list_to_map
    [ ("flatMap", VFun (ErrFn e ResultOps.flatMap));
      ("forEach", VFun (ErrFn e ResultOps.forEach));
      ("get", VFun (ErrFn e ResultOps.get));
      ("getError", VFun (ErrFn e ResultOps.getError));
      ("getValue", VFun (ErrFn e ResultOps.getValue));
      ("isOk", VBool false);
      ("join", VFun (ErrFn e ResultOps.join));
      ("map", VFun (ErrFn e ResultOps.map));
      ("use", VFun (ErrFn e ResultOps.use));
      ("value", e) ]).

(** [export function Err<A>(e: Error): Err<A>] *)
Definition Err (e : value) : M W value :=
  if negb (instanceof_Error e) then
    throw (TypeError
      "invalid argument provided to Err: only Error values are allowed")
  else ret (Err_object e).

Definition Ok_object (a : value) : value :=
  VObj (list_to_map
    [ ("flatMap", VFun (OkFn a ResultOps.flatMap));
      ("forEach", VFun (OkFn a ResultOps.forEach));
      ("get", VFun (OkFn a ResultOps.get));
      ("getError", VFun (OkFn a ResultOps.getError));
      ("getValue", VFun (OkFn a ResultOps.getValue));
      ("isOk", VBool true);
      ("join", VFun (OkFn a ResultOps.join));
      ("map", VFun (OkFn a ResultOps.map));
      ("use", VFun (OkFn a ResultOps.use));
      ("value", a) ]).

(** [export function Ok<A>(a: A): Ok<A>] *)
Definition Ok (a : value) : M W value :=
  if instanceof_Error a then
    throw (TypeError
      "invalid argument provided to Ok: Error values are not allowed")
  else ret (Ok_object a).

(** [export function Result<A>(a: A | Error): Result<A>] *)
Definition Result (a : value) : M W value :=
  if instanceof_Error a then Err a else Ok a.

(** [export function isResult<A>(a: Result<A> | A | Error): a is Result<A>] *)
Definition isResult (a : value) : M W bool :=
  do t <- get_prop a "isOk";
  ret (match t with VUndefined => false | _ => true end).

(** The arrow functions of the object literal in [Err], closed over [e]. *)
Definition Err_call (e : value) (m : ResultOps.t) (args : list (callback W))
  : M W value :=
  match m with
  | ResultOps.flatMap => Err e
  | ResultOps.forEach => ret VUndefined
  | ResultOps.get => throw e
  | ResultOps.getError => ret e
  | ResultOps.getValue => ret VUndefined
  | ResultOps.join => arg 0 args [e]
  | ResultOps.map => Err e
  | ResultOps.use => ret VUndefined
  end.

(** The arrow functions of the object literal in [Ok], closed over [a]. *)
Definition Ok_call (a : value) (m : ResultOps.t) (args : list (callback W))
  : M W value :=
  match m with
  | ResultOps.flatMap => arg 0 args [a]
  | ResultOps.forEach => arg 0 args [a]
  | ResultOps.get => ret a
  | ResultOps.getError => ret VUndefined
  | ResultOps.getValue => ret a
  | ResultOps.join => arg 1 args [a]
  | ResultOps.map => do b <- arg 0 args [a]; Result b
  | ResultOps.use => arg 0 args [a]
  end.

(** ** Calling a function value, and a method of an object *)

(** [fn(...args)] *)
Definition call (fn : value) (args : list (callback W)) : M W value :=
  match fn with
  | VFun (NothingFn m) => Nothing_call m args
  | VFun (JustFn a m) => Just_call a m args
  | VFun (ErrFn e m) => Err_call e m args
  | VFun (OkFn a m) => Ok_call a m args
  | VFun (HostFn id) => host_call id args
  | _ => throw (TypeError "not a function")
  end.

(** [o.k(...args)] *)
Definition invoke (o : value) (k : string) (args : list (callback W))
  : M W value :=
  do fn <- get_prop o k; call fn args.

(** ** src/maybe-selector.ts *)

(** The container bound to [result] by the [if] chain of the wrapper. *)
Definition MaybeSelector_result (r : value) : M W value :=
  match r with
  | VUndefined => Nothing
  | _ => do recognised <- isMaybe r;
         if recognised : bool then ret r else Just r
  end.

(** [export function MaybeSelector(selectorFactory)], applied to [(s, r)]. *)
Definition MaybeSelector (selectorFactory : value -> value -> M W value)
    (s r : value) : M W value :=
  do result <- MaybeSelector_result r;
  do sel <- selectorFactory s result;
  ret (spread result sel).

(** ** src/result-selector.ts *)

(** The container bound to [result] by the [if] chain of the wrapper. *)
Definition ResultSelector_result (r : value) : M W value :=
  match r with
  | VUndefined => Err (Error "result is undefined")
  | _ => do recognised <- isResult r;
         if recognised : bool then ret r else Result r
  end.

(** [export function ResultSelector(selectorFactory)], applied to [(s, r)]. *)
Definition ResultSelector (selectorFactory : value -> value -> M W value)
    (s r : value) : M W value :=
  do result <- ResultSelector_result r;
  do sel <- selectorFactory s result;
  ret (spread result sel).
End Library.

(** ** Plain containers *)




(** ** Containers that keep the constructors' promises *)

(** An object made by [Nothing()] or by [Just(a)] on an [a] it accepts. *)
Inductive Maybe_container : value -> Prop :=
| Maybe_is_Nothing : Maybe_container Nothing_object
| Maybe_is_Just a : is_nullish a = false -> Maybe_container (Just_object a).

(** An object made by [Err(e)] or [Ok(a)] on an argument it accepts. *)
Inductive Result_container : value -> Prop :=
| Result_is_Err e : instanceof_Error e = true -> Result_container (Err_object e)
| Result_is_Ok a : instanceof_Error a = false -> Result_container (Ok_object a).

(** [o.k !== undefined] for an object [o] of own data properties; [false]
    for the other values of the model, which carry no such property. *)
Definition has_tag (k : string) (o : value) : bool :=
  match o with
  | VObj props =>
      match props !! k with
      | None | Some VUndefined => false
      | Some _ => true
      end
  | _ => false
  end.

(** ** Callers' functions and method chains *)

(** The [i]-th parameter of a function called with [args]: [undefined] when
    the call passed fewer arguments. *)
Definition param (i : nat) (args : list value) : value :=
  default VUndefined (args !! i).

Section Callers.
Context {W : Type} `{!Host W}.

(** [x => x] *)
Definition identity_fn : callback W := fun args => ret (param 0 args).

(** [() => d] *)
Definition const_fn (d : value) : callback W := fun _ => ret d.

(** [x => k(f(x))], for a library function [k] such as [Maybe]. *)
Definition then_fn (f : callback W) (k : value -> M W value) : callback W :=
  fun args => do b <- f [param 0 args]; k b.

(** [x => f(x).m(...margs)] *)
Definition then_invoke (f : callback W) (m : string)
    (margs : list (callback W)) : callback W :=
  fun args => do o <- f [param 0 args]; invoke o m margs.

(** [o.k1(...args1).k2(...args2)...]: a chain of method calls, each on the
    value the previous one returned. *)
Fixpoint chain (o : value) (steps : list (string * list (callback W)))
  : M W value :=
  match steps with
  | [] => ret o
  | (k, args) :: rest => do o' <- invoke o k args; chain o' rest
  end.
End Callers.

(** ** Sample callers

    A world that counts calls, a call-counting stub, and the selector
    factories used to run the theorems below on concrete inputs. *)

(** [jest.fn()] returning [v]: every call bumps the counter. *)
Definition stub (v : value) : callback nat :=
  fun _ calls => (Ret v, S calls).

(** [jest.fn(() => { throw v })]. *)
Definition throwing_stub (v : value) : callback nat :=
  fun _ calls => (Throw v, S calls).

(** A factory that throws [v]. *)
Definition throwing_factory (v : value) : value -> value -> M nat value :=
  fun _ _ => throw v.

(** The caller's functions stored in objects: they return [undefined] and
    are not counted. *)
#[export] Instance sample_host : Host nat :=
  fun _ _ => ret VUndefined.

(** [(_, result) => ({ profileUrl() { ... } })], the factory of the tests. *)
Definition user_factory : value -> value -> M nat value :=
  fun _ _ => ret (VObj {[ "profileUrl" := VFun (HostFn 0) ]}).

(** [(_, result) => ({ isNothing: true, isOk: true })]: a factory whose
    mapping reuses the variant tags as keys. *)
Definition tag_factory : value -> value -> M nat value :=
  fun _ _ => ret (VObj (<["isNothing" := VBool true]> {[ "isOk" := VBool true ]})).


(** ** Laws *)

Section Laws.
Context {W : Type} `{!Host W}.

(** *** The monad *)

Lemma bind_ret {A B} (a : A) (k : A -> M W B) : bind (ret a) k = k a.
Proof. reflexivity. Qed.

Lemma bind_returns {A B} (c : M W A) (k : A -> M W B) w a w' :
  c w = (Ret a, w') -> bind c k w = k a w'.
Proof. intros Hc. unfold bind. now rewrite Hc. Qed.

Lemma bind_inv {A B} (c : M W A) (k : A -> M W B) w b w' :
  bind c k w = (Ret b, w') ->
  exists a w1, c w = (Ret a, w1) /\ k a w1 = (Ret b, w').
Proof.
  unfold bind. destruct (c w) as [[a | exn] w1]; intros Hk.
  - now exists a, w1.
  - discriminate.
Qed.

(** *** The constructors on the inputs they accept *)

Lemma is_nullish_false (a : value) :
  a <> VUndefined -> a <> VNull -> is_nullish a = false.
Proof. now destruct a. Qed.

Lemma Just_returns (a : value) :
  is_nullish a = false -> Just (W:=W) a = ret (Just_object a).
Proof. intros Ha. unfold Just. now rewrite Ha. Qed.

Lemma Ok_returns (a : value) :
  instanceof_Error a = false -> Ok (W:=W) a = ret (Ok_object a).
Proof. intros Ha. unfold Ok. now rewrite Ha. Qed.

Lemma Err_returns (e : value) :
  instanceof_Error e = true -> Err (W:=W) e = ret (Err_object e).
Proof. intros He. unfold Err. now rewrite He. Qed.

Lemma Maybe_returns (a : value) :
  Maybe (W:=W) a = ret (if is_nullish a then Nothing_object else Just_object a).
Proof.
  unfold Maybe. destruct (is_nullish a) eqn:Ha; [reflexivity |].
  now apply Just_returns.
Qed.

Lemma Result_returns (a : value) :
  Result (W:=W) a =
  ret (if instanceof_Error a then Err_object a else Ok_object a).
Proof.
  unfold Result. destruct (instanceof_Error a) eqn:Ha.
  - now apply Err_returns.
  - now apply Ok_returns.
Qed.

(** *** The four objects are told apart by their tags *)

Lemma tag_Nothing : tag "isNothing" Nothing_object = Some (VBool true).
Proof. reflexivity. Qed.

Lemma tag_Just a : tag "isNothing" (Just_object a) = Some (VBool false).
Proof. reflexivity. Qed.

Lemma tag_Err e : tag "isOk" (Err_object e) = Some (VBool false).
Proof. reflexivity. Qed.

Lemma tag_Ok a : tag "isOk" (Ok_object a) = Some (VBool true).
Proof. reflexivity. Qed.

Lemma Nothing_not_Just a : Nothing_object <> Just_object a.
Proof.
  intros Heq. apply (f_equal (tag "isNothing")) in Heq.
  rewrite tag_Nothing, tag_Just in Heq. discriminate.
Qed.

Lemma Err_not_Ok e a : Err_object e <> Ok_object a.
Proof.
  intros Heq. apply (f_equal (tag "isOk")) in Heq.
  rewrite tag_Err, tag_Ok in Heq. discriminate.
Qed.

(** *** Method lookup on the four objects *)

Lemma invoke_Nothing m args :
  invoke Nothing_object (MaybeOps.key m) args = Nothing_call m args.
Proof. now destruct m. Qed.

Lemma invoke_Just a m args :
  invoke (Just_object a) (MaybeOps.key m) args = Just_call a m args.
Proof. now destruct m. Qed.

Lemma invoke_Err e m args :
  invoke (Err_object e) (ResultOps.key m) args = Err_call e m args.
Proof. now destruct m. Qed.

Lemma invoke_Ok a m args :
  invoke (Ok_object a) (ResultOps.key m) args = Ok_call a m args.
Proof. now destruct m. Qed.

(** *** Actual arguments *)

Lemma arg_0 (f : callback W) fs : arg 0 (f :: fs) = f.
Proof. reflexivity. Qed.

(** *** map *)

(** C1. On a present container, [map] runs the callback and passes what
    it returned through [Maybe]: the result is [Maybe(y)] for whatever [y]
    the callback returned, the present container around [y] when [y] is
    neither [undefined] nor [null], and the absent container when it is
    one of them, never a present container around that value.  On an Ok
    container [map] passes the callback's result through [Result]: the
    result is [Result(y)], the Ok container around [y] when [y] is not an
    error object, and the Err container around that very error when it is
    one, never an Ok container around it. *)
Theorem map_collapse (x : value) (f : callback W) (w w' : W) (y : value) :
  f [x] w = (Ret y, w') ->
  (x <> VUndefined -> x <> VNull ->
     (do o <- Just x; invoke o "map" [f]) w = Maybe y w'
     /\ (do o <- Just x; invoke o "map" [f]) w
        = (Ret (if is_nullish y then Nothing_object else Just_object y), w')
     /\ (y = VUndefined \/ y = VNull ->
         (do o <- Just x; invoke o "map" [f]) w = (Ret Nothing_object, w')
         /\ Nothing_object <> Just_object y))
  /\ (instanceof_Error x = false ->
        (do o <- Ok x; invoke o "map" [f]) w = Result y w'
        /\ (do o <- Ok x; invoke o "map" [f]) w
           = (Ret (if instanceof_Error y then Err_object y else Ok_object y),
              w')
        /\ (instanceof_Error y = true ->
            (do o <- Ok x; invoke o "map" [f]) w = (Ret (Err_object y), w')
            /\ Err_object y <> Ok_object y)).
Proof.
  intros Hf. split.
  - intros Hu Hn.
    assert (Hmap : (do o <- Just x; invoke o "map" [f]) w = Maybe y w').
    { rewrite (Just_returns x (is_nullish_false x Hu Hn)), bind_ret.
      change "map" with (MaybeOps.key MaybeOps.map). rewrite invoke_Just.
      cbn [Just_call]. now rewrite arg_0, (bind_returns _ _ _ _ _ Hf). }
    split; [exact Hmap |]. rewrite Hmap, Maybe_returns.
    split; [reflexivity |].
    intros Hy. split; [| apply Nothing_not_Just].
    now destruct Hy as [-> | ->].
  - intros Hx.
    assert (Hmap : (do o <- Ok x; invoke o "map" [f]) w = Result y w').
    { rewrite (Ok_returns x Hx), bind_ret.
      change "map" with (ResultOps.key ResultOps.map). rewrite invoke_Ok.
      cbn [Ok_call]. now rewrite arg_0, (bind_returns _ _ _ _ _ Hf). }
    split; [exact Hmap |]. rewrite Hmap, Result_returns.
    split; [reflexivity |].
    intros Hy. split; [| apply Err_not_Ok]. now rewrite Hy.
Qed.

(** C3. On the absent container and on an Err container [map] returns the
    container again (absent, respectively Err around the same error)
    whatever arguments it is given, and leaves the world as it was: the
    callback is not run, and [map(f)] is [map(g)] for all [f] and [g]. *)
Theorem map_short_circuit (args args' : list (callback W)) (w : W) :
  (do o <- Nothing; invoke o "map" args) w = (Ret Nothing_object, w)
  /\ invoke Nothing_object "map" args = invoke Nothing_object "map" args'
  /\ (forall e, instanceof_Error e = true ->
        (do o <- Err e; invoke o "map" args) w = (Ret (Err_object e), w)
        /\ tag "value" (Err_object e) = Some e
        /\ invoke (Err_object e) "map" args
           = invoke (Err_object e) "map" args').
Proof.
  split; [reflexivity |]. split; [reflexivity |].
  intros e He. split; [| split; reflexivity].
  rewrite (Err_returns e He), bind_ret.
  change "map" with (ResultOps.key ResultOps.map). rewrite invoke_Err.
  cbn [Err_call]. now rewrite (Err_returns e He).
Qed.

(** *** flatMap *)

(** C9. On a present container [flatMap(f)] is the call [f(x)] itself:
    same result, same effects, nothing wrapped or checked afterwards. *)
Theorem flatMap_left_identity (x : value) (f : callback W) :
  x <> VUndefined -> x <> VNull ->
  (do o <- Just x; invoke o "flatMap" [f]) = f [x].
Proof.
  intros Hu Hn.
  rewrite (Just_returns x (is_nullish_false x Hu Hn)), bind_ret.
  change "flatMap" with (MaybeOps.key MaybeOps.flatMap).
  now rewrite invoke_Just.
Qed.

(** *** Construction *)

(** C6. [Result] looks at error-ness only: it returns the Err container
    around [a] exactly when [a] is an error object and the Ok container
    around [a] exactly when it is not; [null] and [undefined] are Ok
    payloads, whereas [Maybe] turns both into the absent container. *)
Theorem Result_routes_on_error (a : value) (w : W) :
  (Result a w = (Ret (Err_object a), w) <-> instanceof_Error a = true)
  /\ (Result a w = (Ret (Ok_object a), w) <-> instanceof_Error a = false)
  /\ Result VNull w = (Ret (Ok_object VNull), w)
  /\ Result VUndefined w = (Ret (Ok_object VUndefined), w)
  /\ Maybe VNull w = (Ret Nothing_object, w)
  /\ Maybe VUndefined w = (Ret Nothing_object, w).
Proof.
  assert (Hne : forall e b,
             (Ret (Err_object e), w) <> (Ret (Ok_object b), w)).
  { intros e b Heq. apply (Err_not_Ok e b). congruence. }
  rewrite Result_returns. unfold ret.
  destruct (instanceof_Error a); repeat split;
    try reflexivity; try discriminate; intros Heq; exfalso;
    first [ exact (Hne _ _ Heq) | exact (Hne _ _ (eq_sym Heq)) ].
Qed.

(** C7. [Maybe(undefined)] and [Maybe(null)] are the absent container;
    [Just(undefined)] and [Just(null)] throw a [TypeError]; on every other
    value [Just] returns the present container, whose [value] is the
    argument and whose [isNothing] is [false]. *)
Theorem Maybe_construction (w : W) :
  Maybe VUndefined w = (Ret Nothing_object, w)
  /\ Maybe VNull w = (Ret Nothing_object, w)
  /\ Just VUndefined w
     = (Throw (TypeError
         "invalid argument provided to Just: undefined and null values are not allowed"),
        w)
  /\ Just VNull w
     = (Throw (TypeError
         "invalid argument provided to Just: undefined and null values are not allowed"),
        w)
  /\ (forall a, a <> VUndefined -> a <> VNull ->
        Just a w = (Ret (Just_object a), w)
        /\ tag "value" (Just_object a) = Some a
        /\ tag "isNothing" (Just_object a) = Some (VBool false)).
Proof.
  repeat split; try reflexivity.
  intros. now rewrite Just_returns by now apply is_nullish_false.
Qed.

(** *** get *)

Lemma returns_ret {A} (a : A) : returns (W:=W) (ret a).
Proof. intros w. now exists a, w. Qed.

Lemma returns_bind {A B} (c : M W A) (k : A -> M W B) :
  returns c -> (forall a, returns (k a)) -> returns (bind c k).
Proof.
  intros Hc Hk w. destruct (Hc w) as (a & w1 & Hcw).
  rewrite (bind_returns _ _ _ _ _ Hcw). apply Hk.
Qed.

Lemma returns_Maybe (a : value) : returns (W:=W) (Maybe a).
Proof. rewrite Maybe_returns. apply returns_ret. Qed.

Lemma returns_Result (a : value) : returns (W:=W) (Result a).
Proof. rewrite Result_returns. apply returns_ret. Qed.

(** Every operation of the absent and of a present container other than
    [get] returns, as long as the callbacks it is given return. *)
Lemma Maybe_ops_return (m : MaybeOps.t) (args : list (callback W)) a :
  m <> MaybeOps.get ->
  (forall i vs, i < 2 -> returns (arg i args vs)) ->
  returns (Nothing_call m args) /\ returns (Just_call a m args).
Proof.
  intros Hm Hargs.
  destruct m; try congruence; cbn [Nothing_call Just_call]; split;
    try apply returns_ret; try (apply Hargs; lia).
  apply returns_bind; [apply Hargs; lia | apply returns_Maybe].
Qed.

(** The same for an Err container around an error and an Ok container. *)
Lemma Result_ops_return (m : ResultOps.t) (args : list (callback W)) e a :
  m <> ResultOps.get ->
  instanceof_Error e = true ->
  (forall i vs, i < 2 -> returns (arg i args vs)) ->
  returns (Err_call e m args) /\ returns (Ok_call a m args).
Proof.
  intros Hm He Hargs.
  destruct m; try congruence; cbn [Err_call Ok_call]; split;
    try rewrite (Err_returns e He);
    try apply returns_ret; try (apply Hargs; lia).
  apply returns_bind; [apply Hargs; lia | apply returns_Result].
Qed.

(** C4. [get] by variant: on a present container it returns the value, on
    the absent container it throws [TypeError("value is undefined")], on
    an Ok container it returns the value and on an Err container it throws
    the wrapped error itself.  It is the only operation that can fail by
    itself: every other operation of the four containers returns whenever
    the callbacks it is given return. *)
Theorem get_by_variant (args : list (callback W)) (w : W) :
  (forall x, x <> VUndefined -> x <> VNull ->
     (do o <- Just x; invoke o "get" args) w = (Ret x, w))
  /\ (do o <- Nothing; invoke o "get" args) w
      = (Throw (TypeError "value is undefined"), w)
  /\ (forall x, instanceof_Error x = false ->
        (do o <- Ok x; invoke o "get" args) w = (Ret x, w))
  /\ (forall e, instanceof_Error e = true ->
        (do o <- Err e; invoke o "get" args) w = (Throw e, w))
  /\ ((forall i vs, i < 2 -> returns (arg i args vs)) ->
      (forall m x, m <> MaybeOps.get ->
         returns (invoke Nothing_object (MaybeOps.key m) args)
         /\ returns (invoke (Just_object x) (MaybeOps.key m) args))
      /\ (forall m e x, m <> ResultOps.get -> instanceof_Error e = true ->
           returns (invoke (Err_object e) (ResultOps.key m) args)
           /\ returns (invoke (Ok_object x) (ResultOps.key m) args))).
Proof.
  repeat split.
  - intros x Hu Hn. now rewrite Just_returns by now apply is_nullish_false.
  - intros x Hx. now rewrite (Ok_returns x Hx).
  - intros e He. now rewrite (Err_returns e He).
  - rewrite invoke_Nothing. now apply (Maybe_ops_return m args x).
  - rewrite invoke_Just. now apply (Maybe_ops_return m args x).
  - rewrite invoke_Err. now apply (Result_ops_return m args e x).
  - rewrite invoke_Ok. now apply (Result_ops_return m args e x).
Qed.

(** *** The selector wrappers *)

Lemma isMaybe_object (r : value) (w w' : W) :
  isMaybe r w = (Ret true, w') -> w' = w /\ exists props, r = VObj props.
Proof.
  destruct r as [ | | b | n | s | name message | props | c]; intros Hr;
    try (vm_compute in Hr; discriminate).
  split; [| now exists props].
  unfold isMaybe, bind, get_prop, ret in Hr. congruence.
Qed.

Lemma isResult_object (r : value) (w w' : W) :
  isResult r w = (Ret true, w') -> w' = w /\ exists props, r = VObj props.
Proof.
  destruct r as [ | | b | n | s | name message | props | c]; intros Hr;
    try (vm_compute in Hr; discriminate).
  split; [| now exists props].
  unfold isResult, bind, get_prop, ret in Hr. congruence.
Qed.

Lemma tag_spread result sel k :
  tag k sel = None -> tag k (spread result sel) = tag k result.
Proof. intros Hk. unfold tag, spread. cbn. now apply lookup_union_r. Qed.


Lemma get_prop_spread props sel k :
  tag k sel = None ->
  get_prop (W:=W) (spread (VObj props) sel) k = get_prop (VObj props) k.
Proof.
  intros Hk. unfold spread. cbn [get_prop own_enumerable].
  now rewrite (lookup_union_r _ _ _ Hk).
Qed.





(** C2, as the code has it.  A raw argument that is neither [undefined]
    nor [null] and that [isMaybe] does not recognise is resolved by
    [Just], which on such a value agrees with [Maybe]: the wrapper
    resolves it to the present container around it and merges that
    container with the factory's mapping. *)
Theorem MaybeSelector_raw_value
    (factory : value -> value -> M W value) (s r : value) (w : W) :
  r <> VUndefined -> r <> VNull ->
  isMaybe r w = (Ret false, w) ->
  MaybeSelector_result r w = Maybe r w
  /\ Maybe r w = (Ret (Just_object r), w)
  /\ MaybeSelector factory s r w
     = (do sel <- factory s (Just_object r);
        ret (spread (Just_object r) sel)) w.
Proof.
  intros Hu Hn Hr.
  pose proof (is_nullish_false r Hu Hn) as Hnull.
  assert (Hres : MaybeSelector_result r w = (Ret (Just_object r), w)).
  { assert (Hcase : MaybeSelector_result r w
      = (do recognised <- isMaybe r;
         if recognised : bool then ret r else Just r) w)
      by (destruct r; try reflexivity; congruence).
    rewrite Hcase, (bind_returns _ _ _ _ _ Hr).
    now rewrite (Just_returns r Hnull). }
  repeat split.
  - rewrite Hres, Maybe_returns. now rewrite Hnull.
  - rewrite Maybe_returns. now rewrite Hnull.
  - unfold MaybeSelector. now rewrite (bind_returns _ _ _ _ _ Hres).
Qed.

(** C5. With an [undefined] result argument the Result wrapper resolves
    to the Err container around [new Error("result is undefined")], an
    error object whose message is that literal, and returns that container
    merged with the factory's mapping.  The container is not a Maybe:
    [get] on it throws the error. *)
Theorem ResultSelector_undefined
    (factory : value -> value -> M W value) (s : value) (w w' : W) sel :
  factory s (Err_object (Error "result is undefined")) w = (Ret sel, w') ->
  ResultSelector_result VUndefined w
  = (Ret (Err_object (Error "result is undefined")), w)
  /\ ResultSelector factory s VUndefined w
     = (Ret (spread (Err_object (Error "result is undefined")) sel), w')
  /\ instanceof_Error (Error "result is undefined") = true
  /\ get_prop (Error "result is undefined") "message" w
     = (Ret (VStr "result is undefined"), w)
  /\ tag "isOk" (Err_object (Error "result is undefined"))
     = Some (VBool false)
  /\ isMaybe (Err_object (Error "result is undefined")) w = (Ret false, w)
  /\ (forall args, tag "get" sel = None ->
        invoke (spread (Err_object (Error "result is undefined")) sel)
               "get" args w'
        = (Throw (Error "result is undefined"), w')).
Proof.
  intros Hf. repeat split.
  - unfold ResultSelector.
    change (ResultSelector_result VUndefined)
      with (ret (W:=W) (Err_object (Error "result is undefined"))).
    rewrite bind_ret. now rewrite (bind_returns _ _ _ _ _ Hf).
  - intros args Hget. unfold invoke, Err_object.
    rewrite (get_prop_spread _ sel "get" Hget). reflexivity.
Qed.

(** C8, as the code has it.  An argument that the type test recognises
    is used as it is: it is the resolved container, and the wrapper
    returns it merged with the factory's mapping.  The merged object has
    the tag and the payload of the argument, unless the factory's mapping
    itself has a property of that name, which then wins.  The objects
    made by the four constructors are recognised. *)
Theorem selector_keeps_container
    (factory : value -> value -> M W value) (s r : value) (w w' : W) sel :
  factory s r w = (Ret sel, w') ->
  (isMaybe r w = (Ret true, w) ->
     MaybeSelector_result r w = (Ret r, w)
     /\ MaybeSelector factory s r w = (Ret (spread r sel), w')
     /\ (tag "isNothing" sel = None ->
          get_prop (spread r sel) "isNothing" w' = get_prop r "isNothing" w')
     /\ (tag "value" sel = None ->
          get_prop (spread r sel) "value" w' = get_prop r "value" w'))
  /\ (isResult r w = (Ret true, w) ->
       ResultSelector_result r w = (Ret r, w)
       /\ ResultSelector factory s r w = (Ret (spread r sel), w')
       /\ (tag "isOk" sel = None ->
            get_prop (spread r sel) "isOk" w' = get_prop r "isOk" w')
       /\ (tag "value" sel = None ->
            get_prop (spread r sel) "value" w' = get_prop r "value" w'))
  /\ isMaybe Nothing_object w = (Ret true, w)
  /\ (forall a, isMaybe (Just_object a) w = (Ret true, w))
  /\ (forall e, isResult (Err_object e) w = (Ret true, w))
  /\ (forall a, isResult (Ok_object a) w = (Ret true, w)).
Proof.
  intros Hf.
  assert (Hspread : forall props k,
    r = VObj props -> tag k sel = None ->
    get_prop (spread r sel) k w' = get_prop r k w').
  { intros props k -> Hk. now rewrite get_prop_spread. }
  split; [| split; [| repeat split]].
  - intros Hr. destruct (isMaybe_object _ _ _ Hr) as [_ [props Hobj]].
    assert (Hres : MaybeSelector_result r w = (Ret r, w)).
    { subst r. cbn [MaybeSelector_result].
      now rewrite (bind_returns _ _ _ _ _ Hr). }
    repeat split; eauto.
    unfold MaybeSelector. rewrite (bind_returns _ _ _ _ _ Hres).
    now rewrite (bind_returns _ _ _ _ _ Hf).
  - intros Hr. destruct (isResult_object _ _ _ Hr) as [_ [props Hobj]].
    assert (Hres : ResultSelector_result r w = (Ret r, w)).
    { subst r. cbn [ResultSelector_result].
      now rewrite (bind_returns _ _ _ _ _ Hr). }
    repeat split; eauto.
    unfold ResultSelector. rewrite (bind_returns _ _ _ _ _ Hres).
    now rewrite (bind_returns _ _ _ _ _ Hf).
Qed.

(** *** One level of merging *)



Lemma invoke_spread props sel k args :
  tag k sel = None ->
  invoke (spread (VObj props) sel) k args = invoke (VObj props) k args.
Proof. intros Hk. unfold invoke. now rewrite get_prop_spread. Qed.

End Laws.

(** ** The laws on concrete inputs *)

(** [Just("hello").map(() => undefined)] is the absent container,
    [Just("hello").map(() => "HELLO")] is the present container around
    ["HELLO"], [Ok("hello").map(() => new Error("e"))] is [Err] around that
    error and [Ok("hello").map(() => "HELLO")] is [Ok] around ["HELLO"]; the
    stub ran once in each. *)
Lemma map_collapse_witness :
  (do o <- Just (VStr "hello"); invoke o "map" [stub VUndefined]) 0
  = (Ret Nothing_object, 1)
  /\ (do o <- Just (VStr "hello"); invoke o "map" [stub (VStr "HELLO")]) 0
     = (Ret (Just_object (VStr "HELLO")), 1)
  /\ (do o <- Ok (VStr "hello"); invoke o "map" [stub (Error "e")]) 0
     = (Ret (Err_object (Error "e")), 1)
  /\ (do o <- Ok (VStr "hello"); invoke o "map" [stub (VStr "HELLO")]) 0
     = (Ret (Ok_object (VStr "HELLO")), 1).
Proof.
  split; [| split; [| split]].
  - pose proof (map_collapse (VStr "hello") (stub VUndefined) 0 1 VUndefined
                  eq_refl) as [HJust _].
    destruct HJust as (_ & _ & Hnull); [discriminate | discriminate |].
    apply Hnull. now left.
  - pose proof (map_collapse (VStr "hello") (stub (VStr "HELLO")) 0 1
                  (VStr "HELLO") eq_refl) as [HJust _].
    destruct HJust as (_ & Hvalue & _); [discriminate | discriminate |].
    exact Hvalue.
  - pose proof (map_collapse (VStr "hello") (stub (Error "e")) 0 1 (Error "e")
                  eq_refl) as [_ HOk].
    destruct (HOk eq_refl) as (_ & _ & Herror).
    now apply Herror.
  - pose proof (map_collapse (VStr "hello") (stub (VStr "HELLO")) 0 1
                  (VStr "HELLO") eq_refl) as [_ HOk].
    destruct (HOk eq_refl) as (_ & Hvalue & _).
    exact Hvalue.
Defined.

(** [Nothing().map(f)] and [Err(new Error("fail")).map(f)] with a counting
    stub [f]: the count is still 0 afterwards. *)
Lemma map_short_circuit_witness :
  (do o <- Nothing; invoke o "map" [stub (VStr "x")]) 0
  = (Ret Nothing_object, 0)
  /\ (do o <- Err (Error "fail"); invoke o "map" [stub (VStr "x")]) 0
     = (Ret (Err_object (Error "fail")), 0).
Proof.
  split.
  - apply (map_short_circuit [stub (VStr "x")] [] 0).
  - apply (map_short_circuit [stub (VStr "x")] [] 0). reflexivity.
Defined.

(** [Just("a").flatMap(f)] with [f] the stub returning [Maybe("b")]'s
    object. *)
Lemma flatMap_left_identity_witness :
  (do o <- Just (VStr "a"); invoke o "flatMap" [stub (Just_object (VStr "b"))])
  = stub (Just_object (VStr "b")) [VStr "a"].
Proof.
  apply (flatMap_left_identity (VStr "a") (stub (Just_object (VStr "b"))));
    discriminate.
Defined.

(** [Just("a")] is the present container with value ["a"]. *)
Lemma Maybe_construction_witness :
  Just (VStr "a") 0 = (Ret (Just_object (VStr "a")), 0)
  /\ tag "value" (Just_object (VStr "a")) = Some (VStr "a")
  /\ tag "isNothing" (Just_object (VStr "a")) = Some (VBool false).
Proof.
  apply (Maybe_construction 0); discriminate.
Defined.

(** [get] on the four containers, and [join] with two stubs on
    [Nothing()] and on [Err(new Error("fail"))]. *)
Lemma get_by_variant_witness :
  (do o <- Just (VStr "a"); invoke o "get" [stub VNull; stub VNull]) 0
  = (Ret (VStr "a"), 0)
  /\ (do o <- Ok (VStr "a"); invoke o "get" [stub VNull; stub VNull]) 0
     = (Ret (VStr "a"), 0)
  /\ (do o <- Err (Error "fail"); invoke o "get" [stub VNull; stub VNull]) 0
     = (Throw (Error "fail"), 0)
  /\ returns (invoke Nothing_object "join" [stub VNull; stub VNull])
  /\ returns (invoke (Err_object (Error "fail")) "join"
                     [stub VNull; stub VNull]).
Proof.
  pose proof (get_by_variant [stub VNull; stub VNull] 0)
    as (HJust & _ & HOk & HErr & Hother).
  assert (Hargs : forall i vs, i < 2 ->
            returns (arg i [stub VNull; stub VNull] vs)).
  { intros [| [| i]] vs Hi w;
      [now exists VNull, (S w) | now exists VNull, (S w) | lia]. }
  destruct (Hother Hargs) as [HM HR].
  split; [| split; [| split; [| split]]].
  - apply HJust; discriminate.
  - now apply HOk.
  - now apply HErr.
  - apply (HM MaybeOps.join VNull). discriminate.
  - apply (HR ResultOps.join (Error "fail") VNull); [discriminate | reflexivity].
Defined.

(** [user(state, undefined)] for the Result wrapper of the tests. *)
Lemma ResultSelector_undefined_witness :
  ResultSelector user_factory VNull VUndefined 0
  = (Ret (spread (Err_object (Error "result is undefined"))
                 (VObj {[ "profileUrl" := VFun (HostFn 0) ]})), 0)
  /\ invoke (spread (Err_object (Error "result is undefined"))
                    (VObj {[ "profileUrl" := VFun (HostFn 0) ]}))
            "get" [] 0
     = (Throw (Error "result is undefined"), 0).
Proof.
  pose proof (ResultSelector_undefined user_factory VNull 0 0
                (VObj {[ "profileUrl" := VFun (HostFn 0) ]}) eq_refl)
    as (_ & Hsel & _ & _ & _ & _ & Hget).
  split; [exact Hsel | apply Hget; reflexivity].
Defined.

(** [user(state, 3)] for the Maybe wrapper. *)
Lemma MaybeSelector_raw_value_witness :
  MaybeSelector_result (W:=nat) (VNum 3) 0 = Maybe (VNum 3) 0
  /\ Maybe (W:=nat) (VNum 3) 0 = (Ret (Just_object (VNum 3)), 0)
  /\ MaybeSelector user_factory VNull (VNum 3) 0
     = (do sel <- user_factory VNull (Just_object (VNum 3));
        ret (spread (Just_object (VNum 3)) sel)) 0.
Proof.
  apply (MaybeSelector_raw_value user_factory VNull (VNum 3) 0);
    [discriminate | discriminate | reflexivity].
Defined.

(** [user(state, null)]: [isMaybe(null)] reads a property of [null], so the
    wrapper throws, whereas [Maybe(null)] is the absent container. *)
Lemma MaybeSelector_null_counterexample :
  Maybe (W:=nat) VNull 0 = (Ret Nothing_object, 0)
  /\ isMaybe (W:=nat) VNull 0
     = (Throw (TypeError "Cannot read properties of null"), 0)
  /\ MaybeSelector_result (W:=nat) VNull 0
     = (Throw (TypeError "Cannot read properties of null"), 0)
  /\ MaybeSelector user_factory VNull VNull 0
     = (Throw (TypeError "Cannot read properties of null"), 0)
  /\ MaybeSelector_result (W:=nat) VNull 0 <> Maybe VNull 0.
Proof.
  repeat split. discriminate.
Defined.

(** [user(state, Just(1))] and [user(state, Err(new Error("fail")))] with
    the factory of the tests: the tags and payloads are the arguments'. *)
Lemma selector_keeps_container_witness :
  (MaybeSelector user_factory VNull (Just_object (VNum 1)) 0
   = (Ret (spread (Just_object (VNum 1))
                  (VObj {[ "profileUrl" := VFun (HostFn 0) ]})), 0)
   /\ get_prop (W:=nat)
        (spread (Just_object (VNum 1))
                (VObj {[ "profileUrl" := VFun (HostFn 0) ]})) "isNothing" 0
      = get_prop (Just_object (VNum 1)) "isNothing" 0)
  /\ (ResultSelector user_factory VNull (Err_object (Error "fail")) 0
      = (Ret (spread (Err_object (Error "fail"))
                     (VObj {[ "profileUrl" := VFun (HostFn 0) ]})), 0)
      /\ get_prop (W:=nat)
           (spread (Err_object (Error "fail"))
                   (VObj {[ "profileUrl" := VFun (HostFn 0) ]})) "value" 0
         = get_prop (Err_object (Error "fail")) "value" 0).
Proof.
  split.
  - pose proof (selector_keeps_container user_factory VNull
                  (Just_object (VNum 1)) 0 0
                  (VObj {[ "profileUrl" := VFun (HostFn 0) ]}) eq_refl)
      as (HMaybe & _).
    destruct (HMaybe eq_refl) as (_ & Hsel & Htag & _).
    split; [exact Hsel | apply Htag; reflexivity].
  - pose proof (selector_keeps_container user_factory VNull
                  (Err_object (Error "fail")) 0 0
                  (VObj {[ "profileUrl" := VFun (HostFn 0) ]}) eq_refl)
      as (_ & HResult & _).
    destruct (HResult eq_refl) as (_ & Hsel & _ & Hvalue).
    split; [exact Hsel | apply Hvalue; reflexivity].
Defined.

(** A factory whose mapping has the keys [isNothing] and [isOk]: the
    merged object of [Just(1)] reads [isNothing] as [true], that of
    [Err(new Error("fail"))] reads [isOk] as [true]. *)
Lemma selector_tag_override_counterexample :
  isMaybe (W:=nat) (Just_object (VNum 1)) 0 = (Ret true, 0)
  /\ (exists merged,
        MaybeSelector tag_factory VNull (Just_object (VNum 1)) 0
        = (Ret merged, 0)
        /\ get_prop (W:=nat) merged "isNothing" 0 = (Ret (VBool true), 0)
        /\ get_prop (W:=nat) (Just_object (VNum 1)) "isNothing" 0
           = (Ret (VBool false), 0))
  /\ isResult (W:=nat) (Err_object (Error "fail")) 0 = (Ret true, 0)
  /\ (exists merged,
        ResultSelector tag_factory VNull (Err_object (Error "fail")) 0
        = (Ret merged, 0)
        /\ get_prop (W:=nat) merged "isOk" 0 = (Ret (VBool true), 0)
        /\ get_prop (W:=nat) (Err_object (Error "fail")) "isOk" 0
           = (Ret (VBool false), 0)).
Proof.
  split; [reflexivity |]. split; [| split; [reflexivity |]].
  - eexists. split; [reflexivity |]. split; reflexivity.
  - eexists. split; [reflexivity |]. split; reflexivity.
Defined.



(** ** Further laws of the containers *)

Section ContainerLaws.
Context {W : Type} `{!Host W}.

(** *** Invariants *)

Lemma ret_inv {A} (a b : A) (w w' : W) : ret a w = (Ret b, w') -> a = b /\ w = w'.
Proof. unfold ret. intros Heq. split; congruence. Qed.

(** X1. No present container around [undefined] or [null] is ever made:
    whatever [Maybe] and [Just] return, and whatever [map] returns on a
    container that keeps the promise, keeps it too.  [Maybe] never throws
    and none of the three touches the world by itself. *)
Theorem Maybe_invariant (a : value) (w w' : W) (v : value) :
  (Maybe a w = (Ret v, w') -> Maybe_container v /\ w' = w)
  /\ (Just a w = (Ret v, w') ->
      Maybe_container v /\ w' = w /\ tag "value" v = Some a)
  /\ (exists v0, Maybe a w = (Ret v0, w))
  /\ (forall c args, Maybe_container c ->
        invoke c "map" args w = (Ret v, w') -> Maybe_container v).
Proof.
  assert (HMaybe : forall b, Maybe_container
            (if is_nullish b then Nothing_object else Just_object b)).
  { intros b. destruct (is_nullish b) eqn:Hb;
      [apply Maybe_is_Nothing | now apply Maybe_is_Just]. }
  split; [| split; [| split]].
  - rewrite Maybe_returns. intros Hv. apply ret_inv in Hv as [<- <-].
    split; [apply HMaybe | reflexivity].
  - unfold Just. destruct (is_nullish a) eqn:Ha; [discriminate |].
    intros Hv. apply ret_inv in Hv as [<- <-].
    split; [now apply Maybe_is_Just | split; reflexivity].
  - rewrite Maybe_returns. eexists. reflexivity.
  - intros c args Hc Hv.
    change "map" with (MaybeOps.key MaybeOps.map) in Hv.
    destruct Hc as [| x Hx].
    + rewrite invoke_Nothing in Hv. apply ret_inv in Hv as [<- _].
      apply Maybe_is_Nothing.
    + rewrite invoke_Just in Hv. cbn [Just_call] in Hv.
      apply bind_inv in Hv as (b & w1 & _ & Hv).
      rewrite Maybe_returns in Hv. apply ret_inv in Hv as [<- _].
      apply HMaybe.
Qed.

(** X2. An Ok container never holds an error object and an Err container
    always does: whatever [Result], [Ok] and [Err] return, and whatever
    [map] returns on a container that keeps the promise, keeps it too.
    [Result] never throws. *)
Theorem Result_invariant (a : value) (w w' : W) (v : value) :
  (Result a w = (Ret v, w') -> Result_container v /\ w' = w)
  /\ (Ok a w = (Ret v, w') -> v = Ok_object a /\ instanceof_Error a = false)
  /\ (Err a w = (Ret v, w') -> v = Err_object a /\ instanceof_Error a = true)
  /\ (exists v0, Result a w = (Ret v0, w))
  /\ (forall c args, Result_container c ->
        invoke c "map" args w = (Ret v, w') -> Result_container v).
Proof.
  assert (HResult : forall b, Result_container
            (if instanceof_Error b then Err_object b else Ok_object b)).
  { intros b. destruct (instanceof_Error b) eqn:Hb;
      [now apply Result_is_Err | now apply Result_is_Ok]. }
  split; [| split; [| split; [| split]]].
  - rewrite Result_returns. intros Hv. apply ret_inv in Hv as [<- <-].
    split; [apply HResult | reflexivity].
  - unfold Ok. destruct (instanceof_Error a); [discriminate |].
    intros Hv. apply ret_inv in Hv as [<- _]. now split.
  - unfold Err. destruct (instanceof_Error a); [| discriminate].
    intros Hv. apply ret_inv in Hv as [<- _]. now split.
  - rewrite Result_returns. eexists. reflexivity.
  - intros c args Hc Hv.
    change "map" with (ResultOps.key ResultOps.map) in Hv.
    destruct Hc as [e He | x Hx].
    + rewrite invoke_Err in Hv. cbn [Err_call] in Hv.
      rewrite (Err_returns e He) in Hv. apply ret_inv in Hv as [<- _].
      now apply Result_is_Err.
    + rewrite invoke_Ok in Hv. cbn [Ok_call] in Hv.
      apply bind_inv in Hv as (b & w1 & _ & Hv).
      rewrite Result_returns in Hv. apply ret_inv in Hv as [<- _].
      apply HResult.
Qed.

(** X3. For every value exactly one of [Ok] and [Err] accepts it, the
    other throws its [TypeError], and [Result] is the one that accepts. *)
Theorem Ok_Err_exclusive (a : value) (w : W) :
  (instanceof_Error a = true ->
     Err a w = (Ret (Err_object a), w)
     /\ Ok a w
        = (Throw (TypeError
             "invalid argument provided to Ok: Error values are not allowed"),
           w)
     /\ Result a w = Err a w)
  /\ (instanceof_Error a = false ->
       Ok a w = (Ret (Ok_object a), w)
       /\ Err a w
          = (Throw (TypeError
               "invalid argument provided to Err: only Error values are allowed"),
             w)
       /\ Result a w = Ok a w).
Proof.
  split; intros Ha; unfold Result, Ok, Err; rewrite Ha; repeat split.
Qed.

(** *** join *)

(** X4. [join] runs exactly one of its two functions: the second on the
    payload of a present or Ok container, the first with no argument on the
    absent container and on the error of an Err container.  With
    [() => d] and [x => x] it is an extraction that cannot throw. *)
Theorem join_dispatch (f1 f2 : callback W) (x d : value) :
  invoke (Just_object x) "join" [f1; f2] = f2 [x]
  /\ invoke Nothing_object "join" [f1; f2] = f1 []
  /\ invoke (Ok_object x) "join" [f1; f2] = f2 [x]
  /\ invoke (Err_object x) "join" [f1; f2] = f1 [x]
  /\ invoke (Just_object x) "join" [const_fn d; identity_fn] = ret x
  /\ invoke Nothing_object "join" [const_fn d; identity_fn] = ret d
  /\ invoke (Ok_object x) "join" [const_fn d; identity_fn] = ret x
  /\ invoke (Err_object x) "join" [const_fn d; identity_fn] = ret d.
Proof. repeat split. Qed.

(** *** map and flatMap *)

(** X5. On each of the four containers [map(f)] is
    [flatMap(x => Maybe(f(x)))], respectively
    [flatMap(x => Result(f(x)))]: same result, same effects. *)
Theorem map_via_flatMap (f : callback W) (x : value) :
  invoke Nothing_object "map" [f]
  = invoke Nothing_object "flatMap" [then_fn f Maybe]
  /\ invoke (Just_object x) "map" [f]
     = invoke (Just_object x) "flatMap" [then_fn f Maybe]
  /\ invoke (Err_object x) "map" [f]
     = invoke (Err_object x) "flatMap" [then_fn f Result]
  /\ invoke (Ok_object x) "map" [f]
     = invoke (Ok_object x) "flatMap" [then_fn f Result].
Proof. repeat split. Qed.

(** X6. Identity laws.  On a container that keeps the constructors'
    promise, [map(x => x)], [flatMap(Maybe)] and [flatMap(Result)] return
    the container they were called on. *)
Theorem identity_laws (c : value) (w : W) :
  (Maybe_container c ->
     invoke c "map" [identity_fn] w = (Ret c, w)
     /\ invoke c "flatMap" [then_fn identity_fn Maybe] w = (Ret c, w))
  /\ (Result_container c ->
       invoke c "map" [identity_fn] w = (Ret c, w)
       /\ invoke c "flatMap" [then_fn identity_fn Result] w = (Ret c, w)).
Proof.
  split.
  - intros [| x Hx]; [split; reflexivity |].
    assert (HMaybe : Maybe x w = (Ret (Just_object x), w))
      by (rewrite Maybe_returns; now rewrite Hx).
    split.
    + change "map" with (MaybeOps.key MaybeOps.map). now rewrite invoke_Just.
    + change "flatMap" with (MaybeOps.key MaybeOps.flatMap).
      now rewrite invoke_Just.
  - intros [e He | x Hx].
    + assert (HErr : Err e w = (Ret (Err_object e), w))
        by now rewrite (Err_returns e He).
      split.
      * change "map" with (ResultOps.key ResultOps.map).
        now rewrite invoke_Err.
      * change "flatMap" with (ResultOps.key ResultOps.flatMap).
        now rewrite invoke_Err.
    + assert (HResult : Result x w = (Ret (Ok_object x), w))
        by (rewrite Result_returns; now rewrite Hx).
      split.
      * change "map" with (ResultOps.key ResultOps.map).
        now rewrite invoke_Ok.
      * change "flatMap" with (ResultOps.key ResultOps.flatMap).
        now rewrite invoke_Ok.
Qed.

Lemma then_fn_returns (f : callback W) (k : value -> M W value)
    (x : value) (w : W) (y : value) (w1 : W) :
  f [x] w = (Ret y, w1) -> then_fn f k [x] w = k y w1.
Proof.
  intros Hf. unfold then_fn. change (param 0 [x]) with x.
  now rewrite (bind_returns _ _ _ _ _ Hf).
Qed.

(** X7. Two [map]s in a row.  When [f] returns a value that is neither
    [undefined] nor [null], [map(f).map(g)] on a present container is
    [map(x => g(f(x)))]; when [f] returns [undefined] or [null] the chain is
    absent after the first step and [g] is not run, whereas the fused
    callback would run it.  On an Ok container the same holds with "error
    object" in place of "undefined or null". *)
Theorem map_map (f g : callback W) (x y : value) (w w1 : W) :
  f [x] w = (Ret y, w1) ->
  (do o <- invoke (Just_object x) "map" [f]; invoke o "map" [g]) w
  = (if is_nullish y then (Ret Nothing_object, w1)
     else (do b <- g [y]; Maybe b) w1)
  /\ invoke (Just_object x) "map" [then_fn f (fun b => g [b])] w
     = (do b <- g [y]; Maybe b) w1
  /\ (do o <- invoke (Ok_object x) "map" [f]; invoke o "map" [g]) w
     = (if instanceof_Error y then (Ret (Err_object y), w1)
        else (do b <- g [y]; Result b) w1)
  /\ invoke (Ok_object x) "map" [then_fn f (fun b => g [b])] w
     = (do b <- g [y]; Result b) w1.
Proof.
  intros Hf.
  assert (Hfirst : invoke (Just_object x) "map" [f] w
            = (Ret (if is_nullish y then Nothing_object else Just_object y),
               w1)).
  { change "map" with (MaybeOps.key MaybeOps.map). rewrite invoke_Just.
    cbn [Just_call]. rewrite arg_0, (bind_returns _ _ _ _ _ Hf).
    now rewrite Maybe_returns. }
  assert (Hfirst' : invoke (Ok_object x) "map" [f] w
            = (Ret (if instanceof_Error y then Err_object y else Ok_object y),
               w1)).
  { change "map" with (ResultOps.key ResultOps.map). rewrite invoke_Ok.
    cbn [Ok_call]. rewrite arg_0, (bind_returns _ _ _ _ _ Hf).
    now rewrite Result_returns. }
  split; [| split; [| split]].
  - rewrite (bind_returns _ _ _ _ _ Hfirst).
    destruct (is_nullish y); reflexivity.
  - change "map" with (MaybeOps.key MaybeOps.map). rewrite invoke_Just.
    cbn [Just_call]. rewrite arg_0. unfold bind.
    now rewrite (then_fn_returns _ _ _ _ _ _ Hf).
  - rewrite (bind_returns _ _ _ _ _ Hfirst').
    destruct (instanceof_Error y) eqn:Hy; [| reflexivity].
    change "map" with (ResultOps.key ResultOps.map). rewrite invoke_Err.
    cbn [Err_call]. now rewrite (Err_returns y Hy).
  - change "map" with (ResultOps.key ResultOps.map). rewrite invoke_Ok.
    cbn [Ok_call]. rewrite arg_0. unfold bind.
    now rewrite (then_fn_returns _ _ _ _ _ _ Hf).
Qed.

(** X8. [flatMap] is associative on each of the four containers:
    [c.flatMap(f).flatMap(g)] is [c.flatMap(x => f(x).flatMap(g))]. *)
Theorem flatMap_assoc (f g : callback W) (x e : value) :
  instanceof_Error e = true ->
  (do o <- invoke (Just_object x) "flatMap" [f]; invoke o "flatMap" [g])
  = invoke (Just_object x) "flatMap" [then_invoke f "flatMap" [g]]
  /\ (do o <- invoke Nothing_object "flatMap" [f]; invoke o "flatMap" [g])
     = invoke Nothing_object "flatMap" [then_invoke f "flatMap" [g]]
  /\ (do o <- invoke (Ok_object x) "flatMap" [f]; invoke o "flatMap" [g])
     = invoke (Ok_object x) "flatMap" [then_invoke f "flatMap" [g]]
  /\ (do o <- invoke (Err_object e) "flatMap" [f]; invoke o "flatMap" [g])
     = invoke (Err_object e) "flatMap" [then_invoke f "flatMap" [g]].
Proof.
  intros He. split; [reflexivity |]. split; [reflexivity |].
  split; [reflexivity |].
  change "flatMap" with (ResultOps.key ResultOps.flatMap).
  rewrite !invoke_Err. cbn [Err_call].
  rewrite (Err_returns e He), bind_ret. rewrite invoke_Err. cbn [Err_call].
  now rewrite (Err_returns e He).
Qed.

(** X18. [map] does not flatten.  When the callback returns an object, a
    container included, [map] on a present container wraps that object in a
    new present container and [map] on an Ok container wraps it in a new Ok
    container, even if the object is an Err container; [flatMap] returns
    the object itself. *)
Theorem map_nests (f : callback W) (x : value) (w w1 : W) props :
  f [x] w = (Ret (VObj props), w1) ->
  invoke (Just_object x) "map" [f] w = (Ret (Just_object (VObj props)), w1)
  /\ invoke (Ok_object x) "map" [f] w = (Ret (Ok_object (VObj props)), w1)
  /\ invoke (Just_object x) "flatMap" [f] w = (Ret (VObj props), w1)
  /\ invoke (Ok_object x) "flatMap" [f] w = (Ret (VObj props), w1).
Proof.
  intros Hf. split; [| split; [| split]].
  - change "map" with (MaybeOps.key MaybeOps.map). rewrite invoke_Just.
    cbn [Just_call]. rewrite arg_0. now rewrite (bind_returns _ _ _ _ _ Hf).
  - change "map" with (ResultOps.key ResultOps.map). rewrite invoke_Ok.
    cbn [Ok_call]. rewrite arg_0. now rewrite (bind_returns _ _ _ _ _ Hf).
  - change "flatMap" with (MaybeOps.key MaybeOps.flatMap).
    now rewrite invoke_Just.
  - change "flatMap" with (ResultOps.key ResultOps.flatMap).
    now rewrite invoke_Ok.
Qed.

(** *** What the absent and the Err container never do *)

(** X9. Apart from [join], no operation of the absent container or of an
    Err container runs a function it is given: its outcome is the same for
    every argument list and the world is left as it was. *)
Theorem absent_is_inert (args args' : list (callback W)) (w : W) e :
  (forall m, m <> MaybeOps.join ->
     invoke Nothing_object (MaybeOps.key m) args w
     = invoke Nothing_object (MaybeOps.key m) args' w
     /\ snd (invoke Nothing_object (MaybeOps.key m) args w) = w)
  /\ (forall m, m <> ResultOps.join ->
       invoke (Err_object e) (ResultOps.key m) args w
       = invoke (Err_object e) (ResultOps.key m) args' w
       /\ snd (invoke (Err_object e) (ResultOps.key m) args w) = w).
Proof.
  split; intros m Hm.
  - rewrite !invoke_Nothing. destruct m; try congruence; split; reflexivity.
  - rewrite !invoke_Err.
    destruct m; try congruence; cbn [Err_call]; split; try reflexivity;
      unfold Err; now destruct (negb (instanceof_Error e)).
Qed.

Lemma chain_Nothing (steps : list (string * list (callback W))) (w : W) :
  Forall (fun st => st.1 = "map" \/ st.1 = "flatMap") steps ->
  chain Nothing_object steps w = (Ret Nothing_object, w).
Proof.
  induction 1 as [| [k args] rest Hk _ IH]; [reflexivity |].
  cbn [chain].
  assert (Hstep : invoke Nothing_object k args w = (Ret Nothing_object, w))
    by (destruct Hk as [Hk | Hk]; cbn in Hk; subst k; reflexivity).
  now rewrite (bind_returns _ _ _ _ _ Hstep).
Qed.

Lemma chain_Err (steps : list (string * list (callback W))) (w : W) e :
  instanceof_Error e = true ->
  Forall (fun st => st.1 = "map" \/ st.1 = "flatMap") steps ->
  chain (Err_object e) steps w = (Ret (Err_object e), w).
Proof.
  intros He. induction 1 as [| [k args] rest Hk _ IH]; [reflexivity |].
  cbn [chain].
  assert (Hstep : invoke (Err_object e) k args w = (Ret (Err_object e), w)).
  { destruct Hk as [Hk | Hk]; cbn in Hk; subst k.
    - change "map" with (ResultOps.key ResultOps.map). rewrite invoke_Err.
      cbn [Err_call]. now rewrite (Err_returns e He).
    - change "flatMap" with (ResultOps.key ResultOps.flatMap).
      rewrite invoke_Err. cbn [Err_call]. now rewrite (Err_returns e He). }
  now rewrite (bind_returns _ _ _ _ _ Hstep).
Qed.

(** X10. Absence and errors go through a chain.  Any chain of [map] and
    [flatMap] calls on the absent container returns the absent container,
    and on an Err container it returns that Err container; no function of
    the chain is run, and a final [get] throws the original error. *)
Theorem chain_short_circuit
    (steps : list (string * list (callback W))) (w : W) (e : value) :
  Forall (fun st => st.1 = "map" \/ st.1 = "flatMap") steps ->
  chain Nothing_object steps w = (Ret Nothing_object, w)
  /\ (instanceof_Error e = true ->
       chain (Err_object e) steps w = (Ret (Err_object e), w)
       /\ (do o <- chain (Err_object e) steps; invoke o "get" []) w
          = (Throw e, w)).
Proof.
  intros Hsteps. split; [now apply chain_Nothing |].
  intros He. pose proof (chain_Err steps w e He Hsteps) as HErr.
  split; [exact HErr |].
  rewrite (bind_returns _ _ _ _ _ HErr).
  change "get" with (ResultOps.key ResultOps.get). now rewrite invoke_Err.
Qed.

(** *** getError and getValue *)

(** X11. On a Result container that keeps the constructors' promise
    [getError] and [getValue] never throw and ignore their arguments.
    [getError] returns [undefined] exactly on an Ok container; on an Err
    container it returns the error held in [value] and [getValue] returns
    [undefined]; on an Ok container [getValue] returns [value]. *)
Theorem getError_getValue (c : value) (args : list (callback W)) (w : W) :
  Result_container c ->
  exists err val,
    invoke c "getError" args w = (Ret err, w)
    /\ invoke c "getValue" args w = (Ret val, w)
    /\ (err = VUndefined <-> tag "isOk" c = Some (VBool true))
    /\ (tag "isOk" c = Some (VBool true) -> tag "value" c = Some val)
    /\ (tag "isOk" c = Some (VBool false) ->
        tag "value" c = Some err /\ val = VUndefined
        /\ instanceof_Error err = true).
Proof.
  intros [e He | x Hx].
  - exists e, VUndefined. split; [reflexivity |]. split; [reflexivity |].
    rewrite tag_Err. split; [| split].
    + split; [intros -> | ]; discriminate.
    + discriminate.
    + intros _. now split.
  - exists VUndefined, x. split; [reflexivity |]. split; [reflexivity |].
    rewrite tag_Ok. split; [| split].
    + now split.
    + intros _. reflexivity.
    + discriminate.
Qed.

(** *** Exceptions *)

Lemma bind_throws {A B} (c : M W A) (k : A -> M W B) w exn w' :
  c w = (Throw exn, w') -> bind c k w = (Throw exn, w').
Proof. intros Hc. unfold bind. now rewrite Hc. Qed.

(** X16. Nothing is caught.  When the function given to [map],
    [flatMap], [forEach] or [use] of a present or Ok container throws, or
    the second function given to [join], the operation throws the same
    value and keeps the function's effects. *)
Theorem exceptions_propagate (f f1 : callback W) (x exn : value) (w w1 : W) :
  f [x] w = (Throw exn, w1) ->
  (forall m, m <> MaybeOps.get -> m <> MaybeOps.join ->
     invoke (Just_object x) (MaybeOps.key m) [f] w = (Throw exn, w1))
  /\ invoke (Just_object x) "join" [f1; f] w = (Throw exn, w1)
  /\ (forall m, m <> ResultOps.get -> m <> ResultOps.getError ->
       m <> ResultOps.getValue -> m <> ResultOps.join ->
       invoke (Ok_object x) (ResultOps.key m) [f] w = (Throw exn, w1))
  /\ invoke (Ok_object x) "join" [f1; f] w = (Throw exn, w1).
Proof.
  intros Hf. split; [| split; [| split]].
  - intros m Hget Hjoin. rewrite invoke_Just.
    destruct m; try congruence; cbn [Just_call]; rewrite arg_0;
      try exact Hf.
    now apply bind_throws.
  - change "join" with (MaybeOps.key MaybeOps.join). rewrite invoke_Just.
    exact Hf.
  - intros m Hget HgetError HgetValue Hjoin. rewrite invoke_Ok.
    destruct m; try congruence; cbn [Ok_call]; rewrite arg_0;
      try exact Hf.
    now apply bind_throws.
  - change "join" with (ResultOps.key ResultOps.join). rewrite invoke_Ok.
    exact Hf.
Qed.

(** X20. When the selector factory throws, the wrapper throws the same
    value: no merged object is returned. *)
Theorem factory_exception_propagates
    (factory : value -> value -> M W value) (s r result exn : value)
    (w w0 w1 : W) :
  factory s result w0 = (Throw exn, w1) ->
  (MaybeSelector_result r w = (Ret result, w0) ->
     MaybeSelector factory s r w = (Throw exn, w1))
  /\ (ResultSelector_result r w = (Ret result, w0) ->
       ResultSelector factory s r w = (Throw exn, w1)).
Proof.
  intros Hf. split; intros Hr.
  - unfold MaybeSelector. rewrite (bind_returns _ _ _ _ _ Hr).
    now rewrite (bind_throws _ _ _ _ _ Hf).
  - unfold ResultSelector. rewrite (bind_returns _ _ _ _ _ Hr).
    now rewrite (bind_throws _ _ _ _ _ Hf).
Qed.

(** *** The type tests *)

Lemma isMaybe_has_tag (r : value) (w : W) :
  is_nullish r = false -> isMaybe r w = (Ret (has_tag "isNothing" r), w).
Proof.
  destruct r as [ | | b | n | s | name message | props | c];
    intros Hr; try discriminate; try reflexivity.
  unfold isMaybe, bind, get_prop, ret, has_tag.
  destruct (props !! "isNothing") as [[] |]; reflexivity.
Qed.

Lemma isResult_has_tag (r : value) (w : W) :
  is_nullish r = false -> isResult r w = (Ret (has_tag "isOk" r), w).
Proof.
  destruct r as [ | | b | n | s | name message | props | c];
    intros Hr; try discriminate; try reflexivity.
  unfold isResult, bind, get_prop, ret, has_tag.
  destruct (props !! "isOk") as [[] |]; reflexivity.
Qed.

(** X12. The two families do not recognise each other: [isResult] is
    [false] on the objects made by [Nothing] and [Just], [isMaybe] is
    [false] on those made by [Err] and [Ok].  So the Result wrapper wraps a
    Maybe container in an Ok container, and the Maybe wrapper wraps a
    Result container, an Err container included, in a present container. *)
Theorem families_do_not_mix (a : value) (w : W) :
  isResult Nothing_object w = (Ret false, w)
  /\ isResult (Just_object a) w = (Ret false, w)
  /\ isMaybe (Err_object a) w = (Ret false, w)
  /\ isMaybe (Ok_object a) w = (Ret false, w)
  /\ ResultSelector_result Nothing_object w
     = (Ret (Ok_object Nothing_object), w)
  /\ ResultSelector_result (Just_object a) w
     = (Ret (Ok_object (Just_object a)), w)
  /\ MaybeSelector_result (Err_object a) w
     = (Ret (Just_object (Err_object a)), w)
  /\ MaybeSelector_result (Ok_object a) w
     = (Ret (Just_object (Ok_object a)), w).
Proof. repeat split. Qed.

(** *** Resolution of the wrappers' argument *)

Lemma has_tag_object (k : string) (o : value) :
  has_tag k o = true -> exists props, o = VObj props.
Proof. destruct o; try discriminate. eauto. Qed.

Lemma MaybeSelector_result_recognised (o : value) (w : W) :
  has_tag "isNothing" o = true -> MaybeSelector_result o w = (Ret o, w).
Proof.
  intros Ho. destruct (has_tag_object _ _ Ho) as [props ->].
  cbn [MaybeSelector_result].
  rewrite (bind_returns _ _ _ _ _ (isMaybe_has_tag (VObj props) w eq_refl)).
  now rewrite Ho.
Qed.

Lemma ResultSelector_result_recognised (o : value) (w : W) :
  has_tag "isOk" o = true -> ResultSelector_result o w = (Ret o, w).
Proof.
  intros Ho. destruct (has_tag_object _ _ Ho) as [props ->].
  cbn [ResultSelector_result].
  rewrite (bind_returns _ _ _ _ _ (isResult_has_tag (VObj props) w eq_refl)).
  now rewrite Ho.
Qed.

Lemma MaybeSelector_result_has_tag (r : value) (w w1 : W) result :
  MaybeSelector_result r w = (Ret result, w1) ->
  w1 = w /\ has_tag "isNothing" result = true.
Proof.
  intros Hr.
  destruct (is_nullish r) eqn:Hnull.
  - destruct r; try discriminate.
    apply ret_inv in Hr as [<- <-]. now split.
  - assert (Hcase : MaybeSelector_result r w
      = (do recognised <- isMaybe r;
         if recognised : bool then ret r else Just r) w)
      by (destruct r; try reflexivity; discriminate).
    rewrite Hcase, (bind_returns _ _ _ _ _ (isMaybe_has_tag r w Hnull)) in Hr.
    destruct (has_tag "isNothing" r) eqn:Htag.
    + apply ret_inv in Hr as [<- <-]. now split.
    + rewrite (Just_returns r Hnull) in Hr.
      apply ret_inv in Hr as [<- <-]. now split.
Qed.

Lemma ResultSelector_result_has_tag (r : value) (w w1 : W) result :
  ResultSelector_result r w = (Ret result, w1) ->
  w1 = w /\ has_tag "isOk" result = true.
Proof.
  intros Hr.
  destruct (is_nullish r) eqn:Hnull.
  - destruct r; try discriminate.
    apply ret_inv in Hr as [<- <-]. now split.
  - assert (Hcase : ResultSelector_result r w
      = (do recognised <- isResult r;
         if recognised : bool then ret r else Result r) w)
      by (destruct r; try reflexivity; discriminate).
    rewrite Hcase, (bind_returns _ _ _ _ _ (isResult_has_tag r w Hnull)) in Hr.
    destruct (has_tag "isOk" r) eqn:Htag.
    + apply ret_inv in Hr as [<- <-]. now split.
    + rewrite Result_returns in Hr. apply ret_inv in Hr as [<- <-].
      split; [reflexivity |]. now destruct (instanceof_Error r).
Qed.

(** X13. Whatever a wrapper resolves its argument to passes the wrapper's
    own type test, and resolving it again gives it back: resolution leaves
    the world alone and is idempotent. *)
Theorem resolution_idempotent (r result : value) (w w1 : W) :
  (MaybeSelector_result r w = (Ret result, w1) ->
     w1 = w
     /\ isMaybe result w = (Ret true, w)
     /\ MaybeSelector_result result w = (Ret result, w))
  /\ (ResultSelector_result r w = (Ret result, w1) ->
       w1 = w
       /\ isResult result w = (Ret true, w)
       /\ ResultSelector_result result w = (Ret result, w)).
Proof.
  split; intros Hr.
  - apply MaybeSelector_result_has_tag in Hr as [-> Htag].
    destruct (has_tag_object _ _ Htag) as [props ->].
    split; [reflexivity |]. split.
    + rewrite (isMaybe_has_tag (VObj props) w eq_refl). now rewrite Htag.
    + now apply MaybeSelector_result_recognised.
  - apply ResultSelector_result_has_tag in Hr as [-> Htag].
    destruct (has_tag_object _ _ Htag) as [props ->].
    split; [reflexivity |]. split.
    + rewrite (isResult_has_tag (VObj props) w eq_refl). now rewrite Htag.
    + now apply ResultSelector_result_recognised.
Qed.

(** X14. The Result wrapper on a raw argument.  An argument that is
    neither [undefined] nor [null] and that [isResult] does not recognise
    is resolved by [Result]: to the Err container around it when it is an
    error object, to the Ok container around it otherwise; the wrapper
    returns that container spread with the factory's mapping.  On [null]
    the wrapper throws a [TypeError] and the factory is not run. *)
Theorem ResultSelector_raw_value
    (factory : value -> value -> M W value) (s r : value) (w : W) :
  (r <> VUndefined -> r <> VNull -> isResult r w = (Ret false, w) ->
     ResultSelector_result r w = Result r w
     /\ Result r w
        = (Ret (if instanceof_Error r then Err_object r else Ok_object r), w)
     /\ ResultSelector factory s r w
        = (do sel <- factory s (if instanceof_Error r then Err_object r
                                else Ok_object r);
           ret (spread (if instanceof_Error r then Err_object r
                        else Ok_object r) sel)) w)
  /\ (exists message,
       ResultSelector factory s VNull w = (Throw (TypeError message), w)).
Proof.
  split; [| eexists; reflexivity].
  intros Hu Hn Hr.
  assert (Hcase : ResultSelector_result r w
    = (do recognised <- isResult r;
       if recognised : bool then ret r else Result r) w)
    by (destruct r; try reflexivity; congruence).
  assert (Hres : ResultSelector_result r w
    = (Ret (if instanceof_Error r then Err_object r else Ok_object r), w)).
  { rewrite Hcase, (bind_returns _ _ _ _ _ Hr). now rewrite Result_returns. }
  split; [| split].
  - rewrite Hres. now rewrite Result_returns.
  - now rewrite Result_returns.
  - unfold ResultSelector. now rewrite (bind_returns _ _ _ _ _ Hres).
Qed.

(** *** Wrapping a merged object again *)

Lemma has_tag_spread (k : string) props sel :
  tag k sel = None ->
  has_tag k (spread (VObj props) sel) = has_tag k (VObj props).
Proof.
  intros Hk. unfold has_tag, spread. cbn [own_enumerable].
  now rewrite (lookup_union_r _ _ _ Hk).
Qed.

Lemma spread_twice (result sel : value) :
  spread (spread result sel) sel = spread result sel.
Proof.
  unfold spread. cbn [own_enumerable].
  now rewrite (assoc_L (∪)), (idemp_L (∪)).
Qed.

(** X15. A merged object can be handed to the wrapper again, as the
    selectors of the tests do.  If the factory's mapping has no [isNothing]
    (respectively [isOk]) key, the merged object is recognised and becomes
    the resolved container itself; the wrapper returns it spread with the
    new mapping, and with the same mapping it returns an equal object. *)
Theorem rewrap_merged
    (factory : value -> value -> M W value) (s r result sel sel' : value)
    (w w1 w2 w3 : W) :
  factory s (spread result sel) w2 = (Ret sel', w3) ->
  (MaybeSelector_result r w = (Ret result, w1) ->
     tag "isNothing" sel = None ->
     MaybeSelector_result (spread result sel) w2
     = (Ret (spread result sel), w2)
     /\ MaybeSelector factory s (spread result sel) w2
        = (Ret (spread (spread result sel) sel'), w3)
     /\ (sel' = sel ->
         MaybeSelector factory s (spread result sel) w2
         = (Ret (spread result sel), w3)))
  /\ (ResultSelector_result r w = (Ret result, w1) ->
       tag "isOk" sel = None ->
       ResultSelector_result (spread result sel) w2
       = (Ret (spread result sel), w2)
       /\ ResultSelector factory s (spread result sel) w2
          = (Ret (spread (spread result sel) sel'), w3)
       /\ (sel' = sel ->
           ResultSelector factory s (spread result sel) w2
           = (Ret (spread result sel), w3))).
Proof.
  intros Hf. split; intros Hr Hsel.
  - apply MaybeSelector_result_has_tag in Hr as [_ Htag].
    destruct (has_tag_object _ _ Htag) as [props ->].
    assert (Hres : MaybeSelector_result (spread (VObj props) sel) w2
                   = (Ret (spread (VObj props) sel), w2)).
    { apply MaybeSelector_result_recognised.
      now rewrite (has_tag_spread _ _ _ Hsel). }
    assert (Hwrap : MaybeSelector factory s (spread (VObj props) sel) w2
                    = (Ret (spread (spread (VObj props) sel) sel'), w3)).
    { unfold MaybeSelector. rewrite (bind_returns _ _ _ _ _ Hres).
      now rewrite (bind_returns _ _ _ _ _ Hf). }
    split; [exact Hres |]. split; [exact Hwrap |].
    intros ->. now rewrite Hwrap, spread_twice.
  - apply ResultSelector_result_has_tag in Hr as [_ Htag].
    destruct (has_tag_object _ _ Htag) as [props ->].
    assert (Hres : ResultSelector_result (spread (VObj props) sel) w2
                   = (Ret (spread (VObj props) sel), w2)).
    { apply ResultSelector_result_recognised.
      now rewrite (has_tag_spread _ _ _ Hsel). }
    assert (Hwrap : ResultSelector factory s (spread (VObj props) sel) w2
                    = (Ret (spread (spread (VObj props) sel) sel'), w3)).
    { unfold ResultSelector. rewrite (bind_returns _ _ _ _ _ Hres).
      now rewrite (bind_returns _ _ _ _ _ Hf). }
    split; [exact Hres |]. split; [exact Hwrap |].
    intros ->. now rewrite Hwrap, spread_twice.
Qed.

(** X19. With an [undefined] result argument the Maybe wrapper resolves to
    the absent container and returns it merged with the factory's mapping.
    Unless the mapping overrides them, the merged object reads [value] as
    [undefined], is recognised by [isMaybe], and its [get] throws
    [TypeError("value is undefined")]. *)
Theorem MaybeSelector_undefined
    (factory : value -> value -> M W value) (s : value) (w w' : W) sel :
  factory s Nothing_object w = (Ret sel, w') ->
  MaybeSelector_result VUndefined w = (Ret Nothing_object, w)
  /\ MaybeSelector factory s VUndefined w
     = (Ret (spread Nothing_object sel), w')
  /\ (tag "value" sel = None ->
      get_prop (spread Nothing_object sel) "value" w' = (Ret VUndefined, w'))
  /\ (tag "isNothing" sel = None ->
      isMaybe (spread Nothing_object sel) w' = (Ret true, w'))
  /\ (forall args, tag "get" sel = None ->
        invoke (spread Nothing_object sel) "get" args w'
        = (Throw (TypeError "value is undefined"), w')).
Proof.
  intros Hf. split; [reflexivity |]. split; [| split; [| split]].
  - unfold MaybeSelector.
    change (MaybeSelector_result VUndefined) with (ret (W:=W) Nothing_object).
    rewrite bind_ret. now rewrite (bind_returns _ _ _ _ _ Hf).
  - intros Hk. unfold Nothing_object. now rewrite get_prop_spread.
  - intros Hk. rewrite isMaybe_has_tag by reflexivity.
    unfold Nothing_object. now rewrite has_tag_spread.
  - intros args Hk. unfold Nothing_object. now rewrite invoke_spread.
Qed.
End ContainerLaws.

(** ** The further laws on concrete inputs *)

(** [Maybe(1)] and [Just(1).map(() => null)]. *)
Lemma Maybe_invariant_witness :
  Maybe_container (Just_object (VNum 1)) /\ Maybe_container Nothing_object.
Proof.
  split.
  - apply (Maybe_invariant (VNum 1) 0 0 (Just_object (VNum 1))).
    reflexivity.
  - pose proof (Maybe_invariant (VNum 1) 0 1 Nothing_object)
      as (_ & _ & _ & Hmap).
    apply (Hmap (Just_object (VNum 1)) [stub VNull]);
      [now apply Maybe_is_Just | reflexivity].
Defined.

(** [Result(new Error("e"))] and [Ok(1).map(() => new Error("e"))]. *)
Lemma Result_invariant_witness :
  Result_container (Err_object (Error "e"))
  /\ (Result_container (Ok_object (VNum 1)) ->
      Result_container (Err_object (Error "e"))).
Proof.
  split.
  - apply (Result_invariant (Error "e") 0 0 (Err_object (Error "e"))).
    reflexivity.
  - intros HOk.
    pose proof (Result_invariant (VNum 1) 0 1 (Err_object (Error "e")))
      as (_ & _ & _ & _ & Hmap).
    apply (Hmap (Ok_object (VNum 1)) [stub (Error "e")] HOk). reflexivity.
Defined.

(** [Ok(new Error("fail"))] and [Err("not an error")] throw. *)
Lemma Ok_Err_exclusive_witness :
  Ok (W:=nat) (Error "fail") 0
  = (Throw (TypeError
       "invalid argument provided to Ok: Error values are not allowed"), 0)
  /\ Err (W:=nat) (VStr "not an error") 0
     = (Throw (TypeError
          "invalid argument provided to Err: only Error values are allowed"),
        0).
Proof.
  split.
  - apply (Ok_Err_exclusive (Error "fail") 0). reflexivity.
  - apply (Ok_Err_exclusive (VStr "not an error") 0). reflexivity.
Defined.

(** [Just("a").map(x => x)] and [Err(new Error("e")).flatMap(Result)]. *)
Lemma identity_laws_witness :
  invoke (Just_object (VStr "a")) "map" [identity_fn] 0
  = (Ret (Just_object (VStr "a")), 0)
  /\ invoke (Err_object (Error "e")) "flatMap" [then_fn identity_fn Result] 0
     = (Ret (Err_object (Error "e")), 0).
Proof.
  split.
  - pose proof (identity_laws (Just_object (VStr "a")) 0) as [HMaybe _].
    apply HMaybe. now apply Maybe_is_Just.
  - pose proof (identity_laws (Err_object (Error "e")) 0) as [_ HResult].
    apply HResult. now apply Result_is_Err.
Defined.

(** [Just(1).map(() => null).map(g)]: [g] is not run, the count is 1. *)
Lemma map_map_witness :
  (do o <- invoke (Just_object (VNum 1)) "map" [stub VNull];
   invoke o "map" [stub (VNum 2)]) 0
  = (Ret Nothing_object, 1)
  /\ invoke (Just_object (VNum 1)) "map"
            [then_fn (stub VNull) (fun b => stub (VNum 2) [b])] 0
     = (Ret (Just_object (VNum 2)), 2).
Proof.
  pose proof (map_map (stub VNull) (stub (VNum 2)) (VNum 1) VNull 0 1 eq_refl)
    as (Hchain & Hfused & _).
  split; [exact Hchain | exact Hfused].
Defined.

(** [Err(new Error("fail")).flatMap(f).flatMap(g)]. *)
Lemma flatMap_assoc_witness :
  (do o <- invoke (Err_object (Error "fail")) "flatMap" [stub VNull];
   invoke o "flatMap" [stub VNull])
  = invoke (Err_object (Error "fail")) "flatMap"
           [then_invoke (stub VNull) "flatMap" [stub VNull]].
Proof.
  apply (flatMap_assoc (stub VNull) (stub VNull) VNull (Error "fail")).
  reflexivity.
Defined.

(** [Ok(1).map(() => Err(new Error("e")))] is an Ok container around the
    Err container. *)
Lemma map_nests_witness :
  invoke (Ok_object (VNum 1)) "map" [stub (Err_object (Error "e"))] 0
  = (Ret (Ok_object (Err_object (Error "e"))), 1).
Proof.
  pose proof (map_nests (stub (Err_object (Error "e"))) (VNum 1) 0 1 _
                eq_refl) as (_ & HOk & _).
  exact HOk.
Defined.

(** [Nothing().forEach(f)] with a counting stub. *)
Lemma absent_is_inert_witness :
  invoke Nothing_object "forEach" [stub VNull] 0
  = invoke Nothing_object "forEach" [] 0
  /\ snd (invoke Nothing_object "forEach" [stub VNull] 0) = 0.
Proof.
  pose proof (absent_is_inert [stub VNull] [] 0 VNull) as [HNothing _].
  apply (HNothing MaybeOps.forEach). discriminate.
Defined.

(** [Err(new Error("fail")).flatMap(f).map(g).get()] of the tests. *)
Lemma chain_short_circuit_witness :
  (do o <- chain (Err_object (Error "fail"))
             [("flatMap", [stub VNull]); ("map", [stub VNull])];
   invoke o "get" []) 0
  = (Throw (Error "fail"), 0).
Proof.
  apply (chain_short_circuit
           [("flatMap", [stub VNull]); ("map", [stub VNull])] 0 (Error "fail")).
  - constructor; [now right | constructor; [now left | constructor]].
  - reflexivity.
Defined.

(** [Err(new Error("fail"))]: [getError] is the error, [getValue] is
    [undefined]. *)
Lemma getError_getValue_witness :
  exists err val,
    invoke (Err_object (Error "fail")) "getError" [] 0 = (Ret err, 0)
    /\ invoke (Err_object (Error "fail")) "getValue" [] 0 = (Ret val, 0)
    /\ (err = VUndefined
        <-> tag "isOk" (Err_object (Error "fail")) = Some (VBool true))
    /\ (tag "isOk" (Err_object (Error "fail")) = Some (VBool true) ->
        tag "value" (Err_object (Error "fail")) = Some val)
    /\ (tag "isOk" (Err_object (Error "fail")) = Some (VBool false) ->
        tag "value" (Err_object (Error "fail")) = Some err
        /\ val = VUndefined /\ instanceof_Error err = true).
Proof.
  apply (getError_getValue (Err_object (Error "fail")) [] 0).
  now apply Result_is_Err.
Defined.

(** [Just(1).map(() => { throw "boom" })]. *)
Lemma exceptions_propagate_witness :
  invoke (Just_object (VNum 1)) "map" [throwing_stub (VStr "boom")] 0
  = (Throw (VStr "boom"), 1).
Proof.
  pose proof (exceptions_propagate (throwing_stub (VStr "boom")) (stub VNull)
                (VNum 1) (VStr "boom") 0 1 eq_refl) as (HJust & _).
  apply (HJust MaybeOps.map); discriminate.
Defined.

(** A throwing factory under both wrappers. *)
Lemma factory_exception_propagates_witness :
  MaybeSelector (throwing_factory (VStr "boom")) VNull (VNum 1) 0
  = (Throw (VStr "boom"), 0)
  /\ ResultSelector (throwing_factory (VStr "boom")) VNull VUndefined 0
     = (Throw (VStr "boom"), 0).
Proof.
  split.
  - pose proof (factory_exception_propagates (throwing_factory (VStr "boom"))
                  VNull (VNum 1) (Just_object (VNum 1)) (VStr "boom") 0 0 0
                  eq_refl) as [HMaybe _].
    now apply HMaybe.
  - pose proof (factory_exception_propagates (throwing_factory (VStr "boom"))
                  VNull VUndefined (Err_object (Error "result is undefined"))
                  (VStr "boom") 0 0 0 eq_refl) as [_ HResult].
    now apply HResult.
Defined.

(** The container resolved from [3] is resolved to itself. *)
Lemma resolution_idempotent_witness :
  MaybeSelector_result (W:=nat) (Just_object (VNum 3)) 0
  = (Ret (Just_object (VNum 3)), 0)
  /\ ResultSelector_result (W:=nat) (Ok_object (VNum 3)) 0
     = (Ret (Ok_object (VNum 3)), 0).
Proof.
  split.
  - pose proof (resolution_idempotent (VNum 3) (Just_object (VNum 3)) 0 0)
      as [HMaybe _].
    now apply HMaybe.
  - pose proof (resolution_idempotent (VNum 3) (Ok_object (VNum 3)) 0 0)
      as [_ HResult].
    now apply HResult.
Defined.

(** [user(state, new Error("fail"))] and [user(state, "a")]. *)
Lemma ResultSelector_raw_value_witness :
  ResultSelector_result (W:=nat) (Error "fail") 0
  = (Ret (Err_object (Error "fail")), 0)
  /\ ResultSelector user_factory VNull (VStr "a") 0
     = (Ret (spread (Ok_object (VStr "a"))
                    (VObj {[ "profileUrl" := VFun (HostFn 0) ]})), 0).
Proof.
  split.
  - pose proof (ResultSelector_raw_value user_factory VNull (Error "fail") 0)
      as (Hraw & _).
    destruct Hraw as (Hres & HResult & _);
      [discriminate | discriminate | reflexivity |].
    now rewrite Hres, HResult.
  - pose proof (ResultSelector_raw_value user_factory VNull (VStr "a") 0)
      as (Hraw & _).
    destruct Hraw as (_ & _ & Hwrap);
      [discriminate | discriminate | reflexivity |].
    now rewrite Hwrap.
Defined.

(** [user(state, user(state, 1))] with the factory of the tests. *)
Lemma rewrap_merged_witness :
  MaybeSelector user_factory VNull
    (spread (Just_object (VNum 1))
            (VObj {[ "profileUrl" := VFun (HostFn 0) ]})) 0
  = (Ret (spread (Just_object (VNum 1))
                 (VObj {[ "profileUrl" := VFun (HostFn 0) ]})), 0).
Proof.
  pose proof (rewrap_merged user_factory VNull (VNum 1)
                (Just_object (VNum 1))
                (VObj {[ "profileUrl" := VFun (HostFn 0) ]})
                (VObj {[ "profileUrl" := VFun (HostFn 0) ]})
                0 0 0 0 eq_refl) as (HMaybe & _).
  destruct (HMaybe eq_refl eq_refl) as (_ & _ & Hsame).
  now apply Hsame.
Defined.

(** [user(state, undefined)] with the factory of the tests: [value] is
    [undefined]. *)
Lemma MaybeSelector_undefined_witness :
  MaybeSelector user_factory VNull VUndefined 0
  = (Ret (spread Nothing_object
                 (VObj {[ "profileUrl" := VFun (HostFn 0) ]})), 0)
  /\ get_prop (W:=nat)
       (spread Nothing_object (VObj {[ "profileUrl" := VFun (HostFn 0) ]}))
       "value" 0
     = (Ret VUndefined, 0).
Proof.
  pose proof (MaybeSelector_undefined user_factory VNull 0 0
                (VObj {[ "profileUrl" := VFun (HostFn 0) ]}) eq_refl)
    as (_ & Hsel & Hvalue & _).
  split; [exact Hsel | now apply Hvalue].
Defined.
